(** * glfw3-sys: the X11/GLX bindgen platform header

    A shallow embedding of [crates/glfw3-sys/bindgen/platform/x11.h].
    The header is kept as the text it is; a small front end (lines,
    tokens, one item per line) turns it into the declarations the
    properties below talk about, and a translation-unit model processes
    those items in order. *)

From Stdlib Require Import String Ascii List Bool Arith Lia.
Import ListNotations.
Open Scope string_scope.
Open Scope list_scope.

(** ** The source text *)

Module Source.

Definition nl : ascii := "010"%char.
Definition dq : ascii := "034"%char.

(** A line of the file together with its terminating newline. *)
Definition line (s : string) : string := s ++ String nl "".

(** A [#include] operand in double quotes. *)
Definition quoted (s : string) : string := String dq (s ++ String dq "").

(** The file, character for character.  The last line has no newline. *)
Definition x11_h : string :=
  line "typedef void Display;" ++
  line "typedef void* RRCrtc;" ++
  line "typedef void* RROutput;" ++
  line "typedef void* Window;" ++
  line "" ++
  line "typedef void* GLXContext;" ++
  line "typedef void* GLXWindow;" ++
  line "" ++
  line "#define GLFW_INCLUDE_NONE" ++
  line "#define GLFW_NATIVE_INCLUDE_NONE" ++
  line "#define GLFW_EXPOSE_NATIVE_X11" ++
  line "#define GLFW_EXPOSE_NATIVE_GLX" ++
  line "" ++
  line ("#include " ++ quoted "../../vendor/glfw/include/GLFW/glfw3.h") ++
  ("#include " ++ quoted "../../vendor/glfw/include/GLFW/glfw3native.h").

Definition glfw3_h : string := "../../vendor/glfw/include/GLFW/glfw3.h".
Definition glfw3native_h : string :=
  "../../vendor/glfw/include/GLFW/glfw3native.h".

End Source.

(** ** Lines *)

Module Lines.
Import Source.

(** Number of newline characters of a text. *)
Fixpoint count_newlines (s : string) : nat :=
  match s with
  | EmptyString => 0
  | String c s' => (if Ascii.eqb c nl then 1 else 0) + count_newlines s'
  end.

(** The lines of a text: a newline ends the current line; characters after
    the last newline form a last, unterminated line. *)
Fixpoint split_lines_from (cur s : string) : list string :=
  match s with
  | EmptyString => if String.eqb cur "" then [] else [cur]
  | String c s' =>
      if Ascii.eqb c nl then cur :: split_lines_from "" s'
      else split_lines_from (cur ++ String c "") s'
  end.

Definition split_lines (s : string) : list string := split_lines_from "" s.

(** Does the text end in a newline character? *)
Fixpoint ends_with_newline (s : string) : bool :=
  match s with
  | EmptyString => false
  | String c EmptyString => Ascii.eqb c nl
  | String _ s' => ends_with_newline s'
  end.

End Lines.

(** ** Tokens *)

Module Lexer.
Import Source.

Inductive token : Type :=
| TId (s : string)          (* identifier or keyword *)
| TPunct (c : ascii)        (* any other visible character *)
| TStr (s : string)         (* text between double quotes *)
| TOpen (s : string).       (* a double quote never closed *)

Definition between (lo hi : nat) (c : ascii) : bool :=
  let n := nat_of_ascii c in Nat.leb lo n && Nat.leb n hi.

Definition is_ident_char (c : ascii) : bool :=
  between 65 90 c || between 97 122 c || between 48 57 c
  || Ascii.eqb c "_"%char.

Definition is_space (c : ascii) : bool :=
  Ascii.eqb c " "%char || Ascii.eqb c "009"%char || Ascii.eqb c "013"%char.

Inductive mode : Type :=
| Idle
| InId (acc : string)
| InStr (acc : string).

(** What a character does when no token is open. *)
Definition start (c : ascii) : mode * list token :=
  if is_space c then (Idle, [])
  else if is_ident_char c then (InId (String c ""), [])
  else if Ascii.eqb c dq then (InStr "", [])
  else (Idle, [TPunct c]).

Definition flush (m : mode) : list token :=
  match m with
  | Idle => []
  | InId acc => [TId acc]
  | InStr acc => [TOpen acc]
  end.

Fixpoint lex_from (m : mode) (s : string) : list token :=
  match s with
  | EmptyString => flush m
  | String c s' =>
      match m with
      | Idle => let (m', out) := start c in out ++ lex_from m' s'
      | InId acc =>
          if is_ident_char c then lex_from (InId (acc ++ String c "")) s'
          else TId acc :: (let (m', out) := start c in out ++ lex_from m' s')
      | InStr acc =>
          if Ascii.eqb c dq then TStr acc :: lex_from Idle s'
          else lex_from (InStr (acc ++ String c "")) s'
      end
  end.

Definition lex (s : string) : list token := lex_from Idle s.

End Lexer.

(** ** C types *)

Module CType.

(** The types the header and the headers around it can name.  A struct
    carries its member names when its definition is visible and [None]
    while it is only declared. *)
Inductive ctype : Type :=
| TVoid
| TULong
| TPtr (pointee : ctype)
| TNamed (name : string)
| TStruct (tag : string) (members : option (list string)).

Fixpoint names_eqb (a b : list string) : bool :=
  match a, b with
  | [], [] => true
  | x :: a', y :: b' => String.eqb x y && names_eqb a' b'
  | _, _ => false
  end.

Fixpoint ctype_eqb (a b : ctype) : bool :=
  match a, b with
  | TVoid, TVoid => true
  | TULong, TULong => true
  | TPtr x, TPtr y => ctype_eqb x y
  | TNamed n, TNamed m => String.eqb n m
  | TStruct s None, TStruct t None => String.eqb s t
  | TStruct s (Some ms), TStruct t (Some ns) =>
      String.eqb s t && names_eqb ms ns
  | _, _ => false
  end.

Definition is_pointer (t : ctype) : bool :=
  match t with TPtr _ => true | _ => false end.

Definition is_void (t : ctype) : bool :=
  match t with TVoid => true | _ => false end.

(** Members that code holding a value of the type can reach. *)
Definition members_of (t : ctype) : list string :=
  match t with TStruct _ (Some ms) => ms | _ => [] end.

(** A type whose layout is written out: a struct with its member list. *)
Definition is_structural (t : ctype) : bool :=
  match t with TStruct _ (Some _) => true | _ => false end.

(** Incomplete types: [void], a struct declared but not defined, and a
    name nothing has been resolved for.  No object has such a type. *)
Definition is_complete (t : ctype) : bool :=
  match t with
  | TVoid => false
  | TStruct _ None => false
  | TNamed _ => false
  | _ => true
  end.

(** No typedef name is left in the type. *)
Fixpoint closed (t : ctype) : bool :=
  match t with
  | TNamed _ => false
  | TPtr p => closed p
  | _ => true
  end.

(** A pointer whose pointee is incomplete and has no member to reach. *)
Definition is_opaque_pointer (t : ctype) : bool :=
  match t with
  | TPtr p =>
      negb (is_complete p)
      && match members_of p with [] => true | _ => false end
  | _ => false
  end.

End CType.

(** ** One item per line *)

Module Parser.
Import Source Lines Lexer CType.

Inductive item : Type :=
| IBlank
| ITypedef (ty : ctype) (name : string)
| IDefine (name : string) (body : list token)
| IInclude (path : string)
| ICode (text : list token).   (* anything else: an object or function
                                  declaration, a definition, a statement *)

Definition star : ascii := "*"%char.
Definition semi : ascii := ";"%char.
Definition hash : ascii := "#"%char.

(** The type specifier a typedef starts with, and the tokens after it. *)
Definition parse_base (ts : list token) : option (ctype * list token) :=
  match ts with
  | TId a :: rest =>
      if String.eqb a "void" then Some (TVoid, rest)
      else if String.eqb a "unsigned" then
        match rest with
        | TId b :: rest' =>
            if String.eqb b "long" then Some (TULong, rest') else None
        | _ => None
        end
      else if String.eqb a "struct" then
        match rest with
        | TId tag :: rest' => Some (TStruct tag None, rest')
        | _ => None
        end
      else Some (TNamed a, rest)
  | _ => None
  end.

(** Stars, then the declared name, then the semicolon. *)
Fixpoint parse_declarator (base : ctype) (ts : list token)
  : option (ctype * string) :=
  match ts with
  | TPunct c :: ts' =>
      if Ascii.eqb c star then parse_declarator (TPtr base) ts' else None
  | [TId name; TPunct c] =>
      if Ascii.eqb c semi then Some (base, name) else None
  | _ => None
  end.

Definition parse_typedef (ts : list token) : option item :=
  match parse_base ts with
  | Some (base, rest) =>
      match parse_declarator base rest with
      | Some (ty, name) => Some (ITypedef ty name)
      | None => None
      end
  | None => None
  end.

Definition parse_directive (ts : list token) : option item :=
  match ts with
  | TId d :: rest =>
      if String.eqb d "define" then
        match rest with
        | TId name :: body => Some (IDefine name body)
        | _ => None
        end
      else if String.eqb d "include" then
        match rest with
        | [TStr path] => Some (IInclude path)
        | _ => None
        end
      else None
  | _ => None
  end.

Definition parse_tokens (ts : list token) : item :=
  match ts with
  | [] => IBlank
  | TPunct c :: rest =>
      if Ascii.eqb c hash then
        match parse_directive rest with Some it => it | None => ICode ts end
      else ICode ts
  | TId k :: rest =>
      if String.eqb k "typedef" then
        match parse_typedef rest with Some it => it | None => ICode ts end
      else ICode ts
  | _ => ICode ts
  end.

Definition parse_line (l : string) : item := parse_tokens (lex l).

Definition parse (text : string) : list item :=
  map parse_line (split_lines text).

(** The header as items, one per line. *)
Definition x11_items : list item := parse x11_h.

Definition is_blank (it : item) : bool :=
  match it with IBlank => true | _ => false end.
Definition is_typedef (it : item) : bool :=
  match it with ITypedef _ _ => true | _ => false end.
Definition is_define (it : item) : bool :=
  match it with IDefine _ _ => true | _ => false end.
Definition is_include (it : item) : bool :=
  match it with IInclude _ => true | _ => false end.
Definition is_code (it : item) : bool :=
  match it with ICode _ => true | _ => false end.

(** The typedefs as written, in order. *)
Fixpoint declared_typedefs (its : list item) : list (string * ctype) :=
  match its with
  | [] => []
  | ITypedef ty name :: r => (name, ty) :: declared_typedefs r
  | _ :: r => declared_typedefs r
  end.

(** The macros defined, in order. *)
Fixpoint defined_macros (its : list item) : list string :=
  match its with
  | [] => []
  | IDefine name _ :: r => name :: defined_macros r
  | _ :: r => defined_macros r
  end.


End Parser.

(** ** The translation unit *)

Module Unit.
Import Source Lexer CType Parser.

(** Typedef names in scope, each with the type it stands for. *)
Definition tenv : Type := list (string * ctype).

Fixpoint lookup (n : string) (env : tenv) : option ctype :=
  match env with
  | [] => None
  | (m, t) :: env' => if String.eqb n m then Some t else lookup n env'
  end.

(** The type a type expression denotes: typedef names are aliases and are
    replaced by what they stand for. *)
Fixpoint resolve (env : tenv) (t : ctype) : option ctype :=
  match t with
  | TNamed n => lookup n env
  | TPtr p =>
      match resolve env p with Some p' => Some (TPtr p') | None => None end
  | _ => Some t
  end.

Definition same_type (env : tenv) (a b : ctype) : bool :=
  match resolve env a, resolve env b with
  | Some x, Some y => ctype_eqb x y
  | _, _ => false
  end.

(** Can a value exist that has this type? *)
Definition has_values (env : tenv) (t : ctype) : bool :=
  match resolve env t with Some x => is_complete x | None => false end.

(** May an argument of type [arg] be passed for a parameter of type
    [param]?  The rule of simple assignment: the same arithmetic or struct
    type, pointers to the same type, or a pointer and a pointer to void. *)
Definition can_pass (env : tenv) (arg param : ctype) : bool :=
  match resolve env arg, resolve env param with
  | Some a, Some p =>
      match a, p with
      | TULong, TULong => true
      | TPtr x, TPtr y => ctype_eqb x y || is_void x || is_void y
      | TStruct _ (Some _), TStruct _ (Some _) => ctype_eqb a p
      | _, _ => false
      end
  | _, _ => false
  end.

(** [sub E' E]: every name of [E'] is in [E] with the same type. *)
Definition sub (E' E : tenv) : Prop :=
  forall n t, lookup n E' = Some t -> lookup n E = Some t.

Inductive error : Type :=
| Redefinition (name : string)   (* a typedef name given a second, other type *)
| UnknownType (name : string)    (* a typedef over a name not in scope *)
| Unsupported (text : list token).

Inductive result (A : Type) : Type :=
| Ok (a : A)
| Err (e : error).
Arguments Ok {A} a.
Arguments Err {A} e.

Definition bind {A B : Type} (r : result A) (k : A -> result B) : result B :=
  match r with Ok a => k a | Err e => Err e end.

Notation "x <- r ;; k" := (bind r (fun x => k))
  (at level 61, r at next level, right associativity).

(** A typedef enters the scope; naming the same type again is accepted,
    naming another type is a redefinition. *)
Definition declare (env : tenv) (d : string * ctype) : result tenv :=
  let (name, ty) := d in
  match resolve env ty with
  | None => Err (UnknownType name)
  | Some t =>
      match lookup name env with
      | None => Ok (env ++ [(name, t)])
      | Some t0 => if ctype_eqb t0 t then Ok env else Err (Redefinition name)
      end
  end.

Fixpoint declare_all (env : tenv) (ds : list (string * ctype))
  : result tenv :=
  match ds with
  | [] => Ok env
  | d :: ds' => env' <- declare env d ;; declare_all env' ds'
  end.

Record state : Type := mkState {
  typedefs : tenv;
  macros : list string
}.

Definition initial : state := mkState [] [].

Section Translation.

(** What an included file declares, once its own conditional compilation
    has been decided by the macros defined at the point of inclusion. *)
Variable include_file : string -> list string -> list (string * ctype).

Definition step (st : state) (it : item) : result state :=
  match it with
  | IBlank => Ok st
  | ITypedef ty name =>
      env <- declare (typedefs st) (name, ty) ;; Ok (mkState env (macros st))
  | IDefine name _ => Ok (mkState (typedefs st) (macros st ++ [name]))
  | IInclude path =>
      env <- declare_all (typedefs st) (include_file path (macros st)) ;;
      Ok (mkState env (macros st))
  | ICode text => Err (Unsupported text)
  end.

Fixpoint translate (st : state) (its : list item) : result state :=
  match its with
  | [] => Ok st
  | it :: its' => st' <- step st it ;; translate st' its'
  end.

End Translation.

(** Nothing comes in through the includes: the header on its own. *)
Definition no_includes (_ : string) (_ : list string)
  : list (string * ctype) := [].

(** The typedef scope the header's own declarations build. *)
Definition x11_env : tenv :=
  match translate no_includes initial x11_items with
  | Ok st => typedefs st
  | Err _ => []
  end.

(** The handle kinds: the names the header declares. *)
Definition handle_names : list string := map fst x11_env.

(** What is in scope when an [#include] is reached. *)
Record include_ctx : Type := mkCtx {
  ctx_path : string;
  typedefs_seen : list string;
  macros_seen : list string
}.

Fixpoint scan (tds ms : list string) (its : list item) : list include_ctx :=
  match its with
  | [] => []
  | ITypedef _ name :: r => scan (tds ++ [name]) ms r
  | IDefine name _ :: r => scan tds (ms ++ [name]) r
  | IInclude path :: r => mkCtx path tds ms :: scan tds ms r
  | _ :: r => scan tds ms r
  end.

Definition include_contexts (its : list item) : list include_ctx :=
  scan [] [] its.

(** The three steps of the header, in the order they must come. *)
Definition phase (it : item) : option nat :=
  match it with
  | ITypedef _ _ => Some 0
  | IDefine _ _ => Some 1
  | IInclude _ => Some 2
  | _ => None
  end.

Fixpoint phases (its : list item) : list nat :=
  match its with
  | [] => []
  | it :: r =>
      match phase it with Some p => p :: phases r | None => phases r end
  end.

Fixpoint nondecreasing (l : list nat) : bool :=
  match l with
  | a :: (b :: _) as r => Nat.leb a b && nondecreasing r
  | _ => true
  end.

End Unit.

(** ** The macros and what they select *)

Module Macros.
Import Source Lexer CType Parser Unit.

Inductive role : Type :=
| IncludeNoneGuard
| NativeIncludeNoneGuard
| Expose (api : string).

Definition role_eqb (a b : role) : bool :=
  match a, b with
  | IncludeNoneGuard, IncludeNoneGuard => true
  | NativeIncludeNoneGuard, NativeIncludeNoneGuard => true
  | Expose x, Expose y => String.eqb x y
  | _, _ => false
  end.

Fixpoint strip_prefix (p s : string) : option string :=
  match p, s with
  | EmptyString, _ => Some s
  | String a p', String b s' =>
      if Ascii.eqb a b then strip_prefix p' s' else None
  | String _ _, EmptyString => None
  end.

Definition expose_prefix : string := "GLFW_EXPOSE_NATIVE_".

(** Modelled from the spec: the vendored headers that read these macros are
    not among the sources.  The spec's macro surface has an include-none
    guard, a native-include-none guard, and selectors that expose one
    windowing backend or one graphics-context API; the names are the ones
    the header defines. *)
Definition macro_role (name : string) : option role :=
  if String.eqb name "GLFW_INCLUDE_NONE" then Some IncludeNoneGuard
  else if String.eqb name "GLFW_NATIVE_INCLUDE_NONE"
  then Some NativeIncludeNoneGuard
  else match strip_prefix expose_prefix name with
       | Some api => Some (Expose api)
       | None => None
       end.

Definition has_role (r : role) (name : string) : bool :=
  match macro_role name with Some r' => role_eqb r r' | None => false end.

(** How many of the macros have the role. *)
Definition count_role (r : role) (ms : list string) : nat :=
  List.length (filter (has_role r) ms).

Definition role_defined (r : role) (ms : list string) : bool :=
  existsb (has_role r) ms.

(** The APIs whose exposure macro is among the macros, in order. *)
Fixpoint exposed (ms : list string) : list string :=
  match ms with
  | [] => []
  | m :: r =>
      match macro_role m with
      | Some (Expose api) => api :: exposed r
      | _ => exposed r
      end
  end.

Inductive exposure_kind : Type :=
| Windowing
| GraphicsContext.

Definition kind_eqb (a b : exposure_kind) : bool :=
  match a, b with
  | Windowing, Windowing => true
  | GraphicsContext, GraphicsContext => true
  | _, _ => false
  end.

(** The exposed APIs of one kind, for a table that tells the kinds apart. *)
Definition exposed_of (kind_of : string -> option exposure_kind)
  (k : exposure_kind) (ms : list string) : list string :=
  filter (fun api =>
            match kind_of api with Some k' => kind_eqb k k' | None => false end)
         (exposed ms).

(** Modelled from the spec: the table of backends is in the vendored
    [glfw3native.h], which is not among the sources.  The spec names X11
    as a windowing backend, next to Wayland, Windows and macOS, and GLX
    as a graphics-context API. *)
Definition named_kind_of (api : string) : option exposure_kind :=
  if String.eqb api "X11" || String.eqb api "WAYLAND"
     || String.eqb api "WIN32" || String.eqb api "COCOA"
  then Some Windowing
  else if String.eqb api "GLX" then Some GraphicsContext
  else None.

Definition is_guard (name : string) : bool :=
  has_role IncludeNoneGuard name || has_role NativeIncludeNoneGuard name.

(** The header with the definitions of the suppression guards left out. *)
Definition without_guards (its : list item) : list item :=
  filter (fun it =>
            match it with IDefine name _ => negb (is_guard name) | _ => true end)
         its.

(** Modelled from the spec: the vendored [glfw3.h] and [glfw3native.h] are
    not among the sources.  By the spec, [glfw3.h] pulls in the platform OS
    headers unless the include-none guard is defined, and [glfw3native.h]
    pulls in the native-interop OS headers unless the native-include-none
    guard is defined.  What those OS headers declare is left open. *)
Definition vendored (platform_os native_os : list (string * ctype))
  (path : string) (ms : list string) : list (string * ctype) :=
  if String.eqb path glfw3_h then
    if role_defined IncludeNoneGuard ms then [] else platform_os
  else if String.eqb path glfw3native_h then
    if role_defined NativeIncludeNoneGuard ms then [] else native_os
  else [].

(** An instance of OS headers: the six names the way Xlib, Xrandr and GLX
    define them (identifiers are unsigned long, a display is a struct). *)
Definition xlib_types : list (string * ctype) :=
  [ ("XID", TULong);
    ("Display", TStruct "_XDisplay" None);
    ("Window", TNamed "XID");
    ("RRCrtc", TNamed "XID");
    ("RROutput", TNamed "XID");
    ("GLXContext", TPtr (TStruct "__GLXcontextRec" None));
    ("GLXWindow", TNamed "XID") ].

(** The scope those definitions build when translated on their own. *)
Definition xlib_env : tenv :=
  match declare_all [] xlib_types with
  | Ok env => env
  | Err _ => []
  end.

End Macros.

(** ** The properties as the specification words them *)

Module Stated.
Import Source Lines Lexer CType Parser Unit Macros.

(** Handles of different kinds are never interchangeable. *)
Definition handles_non_interchangeable : Prop :=
  forall h1 h2 : string,
    In h1 handle_names -> In h2 handle_names -> h1 <> h2 ->
    can_pass x11_env (TNamed h1) (TNamed h2) = false.

(** Every handle is declared as a pointer to a memberless incomplete type. *)
Definition handles_all_opaque_pointers : Prop :=
  forall (n : string) (t : ctype),
    In (n, t) (declared_typedefs x11_items) -> is_opaque_pointer t = true.

Definition is_declarative (it : item) : bool :=
  is_blank it || is_typedef it || is_define it || is_include it.

(** The file has fourteen lines, each a typedef, a macro, an include or
    blank. *)
Definition fourteen_lines : Prop :=
  List.length (split_lines x11_h) = 14
  /\ Forall (fun l => is_declarative (parse_line l) = true)
            (split_lines x11_h).

End Stated.

(** ** Uses of the header: types over its names, its lines again, its
    macros at work *)

Module Uses.
Import Source Lines Lexer CType Parser Unit Macros.

(** A type that ends in [void] under any number of pointers. *)
Fixpoint void_based (t : ctype) : bool :=
  match t with
  | TVoid => true
  | TPtr p => void_based p
  | _ => false
  end.

(** A type expression written with the header's names only: [void] or a
    handle name, under any number of stars. *)
Fixpoint over_handles (t : ctype) : bool :=
  match t with
  | TVoid => true
  | TNamed n => existsb (String.eqb n) handle_names
  | TPtr p => over_handles p
  | _ => false
  end.


(** The macros with their replacement lists, in order. *)
Fixpoint macro_table (its : list item) : list (string * list token) :=
  match its with
  | [] => []
  | IDefine name body :: r => (name, body) :: macro_table r
  | _ :: r => macro_table r
  end.

Fixpoint replacement (n : string) (tbl : list (string * list token))
  : option (list token) :=
  match tbl with
  | [] => None
  | (m, body) :: tbl' =>
      if String.eqb n m then Some body else replacement n tbl'
  end.

(** Replacement of object-like macros in a line of tokens: an identifier
    that names a macro gives way to the macro's replacement list.  The
    header's replacement lists are empty, so nothing is left to scan
    again. *)
Fixpoint expand (tbl : list (string * list token)) (ts : list token)
  : list token :=
  match ts with
  | [] => []
  | TId s :: r =>
      match replacement s tbl with
      | Some body => body ++ expand tbl r
      | None => TId s :: expand tbl r
      end
  | t :: r => t :: expand tbl r
  end.

(** Is the token an identifier in the [GLFW_] name space? *)
Definition in_glfw_macro_space (t : token) : bool :=
  match t with
  | TId s =>
      match strip_prefix "GLFW_" s with Some _ => true | None => false end
  | _ => false
  end.

End Uses.

Import Source Lines Lexer CType Parser Unit Macros Stated.

(** ** What the front end makes of the file *)

Lemma x11_lines :
  split_lines x11_h =
  [ "typedef void Display;"; "typedef void* RRCrtc;";
    "typedef void* RROutput;"; "typedef void* Window;"; "";
    "typedef void* GLXContext;"; "typedef void* GLXWindow;"; "";
    "#define GLFW_INCLUDE_NONE"; "#define GLFW_NATIVE_INCLUDE_NONE";
    "#define GLFW_EXPOSE_NATIVE_X11"; "#define GLFW_EXPOSE_NATIVE_GLX"; "";
    "#include " ++ quoted glfw3_h; "#include " ++ quoted glfw3native_h ]%string.
Proof. vm_compute. reflexivity. Qed.

Lemma x11_items_eq :
  x11_items =
  [ ITypedef TVoid "Display"; ITypedef (TPtr TVoid) "RRCrtc";
    ITypedef (TPtr TVoid) "RROutput"; ITypedef (TPtr TVoid) "Window";
    IBlank;
    ITypedef (TPtr TVoid) "GLXContext"; ITypedef (TPtr TVoid) "GLXWindow";
    IBlank;
    IDefine "GLFW_INCLUDE_NONE" []; IDefine "GLFW_NATIVE_INCLUDE_NONE" [];
    IDefine "GLFW_EXPOSE_NATIVE_X11" []; IDefine "GLFW_EXPOSE_NATIVE_GLX" [];
    IBlank;
    IInclude glfw3_h; IInclude glfw3native_h ].
Proof. vm_compute. reflexivity. Qed.

Lemma x11_env_eq :
  x11_env =
  [ ("Display", TVoid); ("RRCrtc", TPtr TVoid); ("RROutput", TPtr TVoid);
    ("Window", TPtr TVoid); ("GLXContext", TPtr TVoid);
    ("GLXWindow", TPtr TVoid) ].
Proof. vm_compute. reflexivity. Qed.

Lemma handle_names_eq :
  handle_names =
  [ "Display"; "RRCrtc"; "RROutput"; "Window"; "GLXContext"; "GLXWindow" ].
Proof. vm_compute. reflexivity. Qed.

(** The header on its own translates, whatever the includes would bring
    being left out. *)
Lemma x11_translates_alone :
  translate no_includes initial x11_items
  = Ok (mkState x11_env (defined_macros x11_items)).
Proof. vm_compute. reflexivity. Qed.

(** ** Handle kinds and their types *)

Ltac in_cases H :=
  simpl in H;
  repeat (let E := fresh "E" in destruct H as [E | H]; [symmetry in E | ]);
  [ .. | contradiction ].

Ltac decide_side :=
  match goal with
  | H : _ = true |- _ => vm_compute in H; discriminate H
  | |- _ = true => vm_compute; reflexivity
  | |- _ \/ _ => first [ left; reflexivity | right; split; discriminate ]
  | |- _ /\ _ => split; discriminate
  | H : _ \/ _ |- _ =>
      destruct H as [H | [H ?]];
      first [ discriminate H | exfalso; apply H; reflexivity
            | exfalso; auto ]
  | H : _ /\ _ |- _ =>
      destruct H as [? ?]; exfalso; auto
  end.

(** C1, as stated, fails: the typedefs are aliases, and an [RRCrtc] is a
    [void*] exactly as a [Window] is, so one passes for the other. *)
Lemma handles_non_interchangeable_fails :
  can_pass x11_env (TNamed "RRCrtc") (TNamed "Window") = true
  /\ ~ handles_non_interchangeable.
Proof.
  split; [ vm_compute; reflexivity | ].
  intro H.
  specialize (H "RRCrtc" "Window").
  rewrite handle_names_eq in H.
  assert (C : can_pass x11_env (TNamed "RRCrtc") (TNamed "Window") = false).
  { apply H; [ simpl; tauto | simpl; tauto | discriminate ]. }
  vm_compute in C. discriminate C.
Qed.

(** C1, amended: the six handle names are pairwise distinct, but only
    [Display] stands for a type of its own.  Two handle kinds denote the
    same type exactly when they are the same kind or neither is
    [Display], and a value of one kind can be passed where the other is
    expected exactly when neither is [Display]. *)
Theorem handles_interchangeable_unless_Display :
  forall h1 h2 : string,
    In h1 handle_names -> In h2 handle_names ->
    NoDup handle_names
    /\ (same_type x11_env (TNamed h1) (TNamed h2) = true
        <-> (h1 = h2 \/ (h1 <> "Display" /\ h2 <> "Display")))
    /\ (can_pass x11_env (TNamed h1) (TNamed h2) = true
        <-> (h1 <> "Display" /\ h2 <> "Display")).
Proof.
  intros h1 h2 H1 H2.
  rewrite handle_names_eq in *.
  split.
  { repeat constructor; simpl; intuition discriminate. }
  in_cases H1; in_cases H2; subst h1 h2;
    (split; split; intro H; decide_side).
Qed.

Lemma handles_interchangeable_unless_Display_witness :
  In "GLXContext" handle_names /\ In "Window" handle_names
  /\ can_pass x11_env (TNamed "GLXContext") (TNamed "Window") = true.
Proof.
  assert (A : In "GLXContext" handle_names) by (vm_compute; tauto).
  assert (B : In "Window" handle_names) by (vm_compute; tauto).
  split; [ exact A | split; [ exact B | ] ].
  apply (proj2 (proj2
           (handles_interchangeable_unless_Display "GLXContext" "Window" A B))).
  split; discriminate.
Defined.

(** C2, as stated, fails: [Display] is declared as [void], which is not a
    pointer type. *)
Lemma handles_all_opaque_pointers_fails :
  In ("Display", TVoid) (declared_typedefs x11_items)
  /\ is_opaque_pointer TVoid = false
  /\ ~ handles_all_opaque_pointers.
Proof.
  assert (A : In ("Display", TVoid) (declared_typedefs x11_items))
    by (vm_compute; tauto).
  split; [ exact A | split; [ reflexivity | ] ].
  intro H. specialize (H "Display" TVoid A). discriminate H.
Qed.

(** C2, amended: no handle kind is declared as a structurally-defined type
    and none has a member to reach.  [RRCrtc], [RROutput], [Window],
    [GLXContext] and [GLXWindow] are each a pointer whose pointee, [void],
    is incomplete and memberless; [Display] is declared as the incomplete
    type [void] itself, not as a pointer. *)
Theorem handles_opaque_never_structural :
  Forall (fun d => is_structural (snd d) = false
                   /\ members_of (snd d) = []
                   /\ is_opaque_pointer (snd d)
                      = negb (String.eqb (fst d) "Display"))
         (declared_typedefs x11_items)
  /\ map fst (filter (fun d => is_opaque_pointer (snd d))
                     (declared_typedefs x11_items))
     = [ "RRCrtc"; "RROutput"; "Window"; "GLXContext"; "GLXWindow" ]
  /\ lookup "Display" (declared_typedefs x11_items) = Some TVoid
  /\ is_pointer TVoid = false
  /\ is_complete TVoid = false.
Proof.
  rewrite x11_items_eq. cbn [declared_typedefs].
  split; [ | repeat split ].
  repeat constructor.
Qed.

(** C10: the typedefs are not of one shape.  [Display] alone is declared
    as [void]: no value has that type, and a [Display*] is a [void*].
    Each of the other five is declared as [void*] directly. *)
Theorem Display_is_void_others_void_pointers :
  declared_typedefs x11_items
  = ("Display", TVoid)
    :: map (fun n => (n, TPtr TVoid))
           [ "RRCrtc"; "RROutput"; "Window"; "GLXContext"; "GLXWindow" ]
  /\ filter (fun d => is_void (snd d)) (declared_typedefs x11_items)
     = [ ("Display", TVoid) ]
  /\ has_values x11_env (TNamed "Display") = false
  /\ resolve x11_env (TPtr (TNamed "Display")) = Some (TPtr TVoid)
  /\ has_values x11_env (TPtr (TNamed "Display")) = true
  /\ Forall (fun n => resolve x11_env (TNamed n) = Some (TPtr TVoid)
                      /\ has_values x11_env (TNamed n) = true)
            [ "RRCrtc"; "RROutput"; "Window"; "GLXContext"; "GLXWindow" ].
Proof.
  rewrite x11_env_eq, x11_items_eq.
  repeat split; repeat constructor.
Qed.

(** ** Macros *)

(** C3: of the macros the header defines, exactly the two with the
    exposure prefix select an API, X11 and GLX; for any table of kinds in
    which X11 is a windowing backend and GLX a graphics-context API, that
    is one windowing backend and one graphics-context API. *)
Theorem one_windowing_one_context_exposed :
  forall kind_of : string -> option exposure_kind,
    kind_of "X11" = Some Windowing ->
    kind_of "GLX" = Some GraphicsContext ->
    exposed (defined_macros x11_items) = [ "X11"; "GLX" ]
    /\ exposed_of kind_of Windowing (defined_macros x11_items) = [ "X11" ]
    /\ exposed_of kind_of GraphicsContext (defined_macros x11_items)
       = [ "GLX" ]
    /\ List.length (defined_macros x11_items)
       = 2 + List.length (exposed (defined_macros x11_items)).
Proof.
  intros kind_of HX HG.
  assert (E : exposed (defined_macros x11_items) = [ "X11"; "GLX" ])
    by (vm_compute; reflexivity).
  unfold exposed_of. rewrite E. cbn [filter].
  rewrite HX, HG. cbn [kind_eqb].
  repeat split.
Qed.

Lemma one_windowing_one_context_exposed_witness :
  named_kind_of "X11" = Some Windowing
  /\ named_kind_of "GLX" = Some GraphicsContext
  /\ exposed_of named_kind_of Windowing (defined_macros x11_items) = [ "X11" ]
  /\ exposed_of named_kind_of GraphicsContext (defined_macros x11_items)
     = [ "GLX" ].
Proof.
  split; [ reflexivity | split; [ reflexivity | ] ].
  pose proof (one_windowing_one_context_exposed named_kind_of
                eq_refl eq_refl) as H.
  split; [ exact (proj1 (proj2 H)) | exact (proj1 (proj2 (proj2 H))) ].
Defined.

(** C5: the header first declares its typedefs, then defines its macros,
    and only then includes the vendored headers; at each include all six
    typedefs and all four macros are already in scope. *)
Theorem typedefs_then_macros_then_includes :
  nondecreasing (phases x11_items) = true
  /\ phases x11_items = [ 0; 0; 0; 0; 0; 0; 1; 1; 1; 1; 2; 2 ]
  /\ map ctx_path (include_contexts x11_items) = [ glfw3_h; glfw3native_h ]
  /\ Forall (fun c => typedefs_seen c = handle_names
                      /\ macros_seen c = defined_macros x11_items)
            (include_contexts x11_items)
  /\ defined_macros x11_items
     = [ "GLFW_INCLUDE_NONE"; "GLFW_NATIVE_INCLUDE_NONE";
         "GLFW_EXPOSE_NATIVE_X11"; "GLFW_EXPOSE_NATIVE_GLX" ].
Proof.
  rewrite handle_names_eq, x11_items_eq.
  repeat split; repeat constructor.
Qed.

(** C6: the header defines the include-none guard once and, as a macro of
    its own, the native-include-none guard once; both are defined when
    each of the two vendored headers is included. *)
Theorem suppression_guards_defined_before_includes :
  count_role IncludeNoneGuard (defined_macros x11_items) = 1
  /\ count_role NativeIncludeNoneGuard (defined_macros x11_items) = 1
  /\ filter is_guard (defined_macros x11_items)
     = [ "GLFW_INCLUDE_NONE"; "GLFW_NATIVE_INCLUDE_NONE" ]
  /\ macro_role "GLFW_INCLUDE_NONE" <> macro_role "GLFW_NATIVE_INCLUDE_NONE"
  /\ map ctx_path (include_contexts x11_items) = [ glfw3_h; glfw3native_h ]
  /\ Forall (fun c => role_defined IncludeNoneGuard (macros_seen c) = true
                      /\ role_defined NativeIncludeNoneGuard (macros_seen c)
                         = true)
            (include_contexts x11_items).
Proof.
  rewrite x11_items_eq.
  repeat split; try discriminate; repeat constructor.
Qed.

(** ** Shape of the file *)

(** C7: the header is declarations only.  Every line is blank, a typedef,
    a macro definition or an include; no line is anything else (no
    function, no object, no statement); every macro has an empty
    replacement list, so none expands to code; and translating the header
    on its own succeeds with nothing but typedef names and macro names in
    its state. *)
Theorem header_is_declarations_only :
  Forall (fun it => is_declarative it = true) x11_items
  /\ filter is_code x11_items = []
  /\ Forall (fun it => match it with
                       | IDefine _ body => body = []
                       | _ => True
                       end) x11_items
  /\ translate no_includes initial x11_items
     = Ok (mkState x11_env (defined_macros x11_items)).
Proof.
  split; [ | split; [ | split ] ].
  - rewrite x11_items_eq. repeat constructor.
  - rewrite x11_items_eq. reflexivity.
  - rewrite x11_items_eq. repeat constructor.
  - exact x11_translates_alone.
Qed.

(** C9, as stated, fails: the file has fifteen lines, not fourteen. *)
Lemma fourteen_lines_fails :
  List.length (split_lines x11_h) = 15 /\ ~ fourteen_lines.
Proof.
  split; [ vm_compute; reflexivity | ].
  intros [H _]. vm_compute in H. discriminate H.
Qed.

(** C9, amended: the file has fifteen lines, fourteen ended by a newline
    and a last one that is not; six are typedefs, four macro definitions,
    two includes and three blank, and no line is anything else. *)
Theorem fifteen_lines_all_declarative :
  List.length (split_lines x11_h) = 15
  /\ count_newlines x11_h = 14
  /\ ends_with_newline x11_h = false
  /\ Forall (fun l => is_declarative (parse_line l) = true)
            (split_lines x11_h)
  /\ List.length (filter is_typedef (parse x11_h)) = 6
  /\ List.length (filter is_define (parse x11_h)) = 4
  /\ List.length (filter is_include (parse x11_h)) = 2
  /\ List.length (filter is_blank (parse x11_h)) = 3.
Proof.
  repeat split; try (vm_compute; reflexivity).
  rewrite x11_lines. repeat constructor.
Qed.

(** ** Typedef scopes: equality of types, growth of a scope *)

Lemma names_eqb_refl (l : list string) : names_eqb l l = true.
Proof.
  induction l as [ | x l IH ]; simpl; [ reflexivity | ].
  rewrite String.eqb_refl. exact IH.
Qed.

Lemma names_eqb_eq (a b : list string) : names_eqb a b = true -> a = b.
Proof.
  revert b. induction a as [ | x a IH ]; intros [ | y b ]; simpl;
    try discriminate; [ reflexivity | ].
  intro H. apply andb_true_iff in H as [Hxy Hab].
  apply String.eqb_eq in Hxy. f_equal; auto.
Qed.

Lemma ctype_eqb_refl (t : ctype) : ctype_eqb t t = true.
Proof.
  induction t as [ | | p IH | n | tag [ ms | ] ]; simpl; auto.
  - apply String.eqb_refl.
  - rewrite String.eqb_refl. apply names_eqb_refl.
  - apply String.eqb_refl.
Qed.

Lemma ctype_eqb_eq (a b : ctype) : ctype_eqb a b = true -> a = b.
Proof.
  revert b.
  induction a as [ | | p IH | n | tag [ ms | ] ];
    intros [ | | q | m | tag' [ ns | ] ]; simpl; try discriminate; intro H.
  - reflexivity.
  - reflexivity.
  - f_equal. auto.
  - apply String.eqb_eq in H. congruence.
  - apply andb_true_iff in H as [H1 H2].
    apply String.eqb_eq in H1. apply names_eqb_eq in H2. congruence.
  - apply String.eqb_eq in H. congruence.
Qed.

Lemma lookup_app_one (n m : string) (t : ctype) (env : tenv) :
  lookup n (env ++ [(m, t)])
  = match lookup n env with
    | Some u => Some u
    | None => if String.eqb n m then Some t else None
    end.
Proof.
  induction env as [ | [k u] env IH ]; simpl.
  - reflexivity.
  - destruct (String.eqb n k); [ reflexivity | exact IH ].
Qed.

Lemma lookup_some_in (n : string) (t : ctype) (env : tenv) :
  lookup n env = Some t -> In n (map fst env).
Proof.
  induction env as [ | [k u] env IH ]; simpl; [ discriminate | ].
  destruct (String.eqb n k) eqn:E.
  - intros _. left. symmetry. apply String.eqb_eq. exact E.
  - intro H. right. auto.
Qed.

Lemma resolve_sub (E' E : tenv) (ty r : ctype) :
  sub E' E -> resolve E' ty = Some r -> resolve E ty = Some r.
Proof.
  intro S. revert r.
  induction ty as [ | | p IH | n | tag ms ]; simpl; intros r H; auto.
  destruct (resolve E' p) as [ p' | ]; [ | discriminate ].
  rewrite (IH p' eq_refl). exact H.
Qed.

Lemma declare_all_app (env : tenv) (a b : list (string * ctype)) :
  declare_all env (a ++ b)
  = (env' <- declare_all env a ;; declare_all env' b).
Proof.
  revert env. induction a as [ | d a IH ]; intro env; simpl.
  - reflexivity.
  - destruct (declare env d) as [ env1 | e ]; simpl; [ apply IH | reflexivity ].
Qed.

Lemma translate_app (inc : string -> list string -> list (string * ctype))
  (st : state) (a b : list item) :
  translate inc st (a ++ b)
  = (st' <- translate inc st a ;; translate inc st' b).
Proof.
  revert st. induction a as [ | it a IH ]; intro st; simpl.
  - reflexivity.
  - destruct (step inc st it) as [ st1 | e ]; simpl; [ apply IH | reflexivity ].
Qed.

(** Running the same declarations in a scope [E] that already holds the
    header's names [E0], next to running them in a scope [E'] of their
    own: as long as no name of [E0] is given another type the two runs
    agree, and the first disagreement is a redefinition of a name of
    [E0]. *)
Lemma declare_all_next_to (E0 : tenv) (ds : list (string * ctype)) :
  forall (E E' os_env : tenv),
    sub E' E ->
    (forall n t, lookup n E = Some t ->
                 lookup n E' = Some t \/ lookup n E0 = Some t) ->
    sub E0 E ->
    declare_all E' ds = Ok os_env ->
    (exists m, In m (map fst E0) /\ declare_all E ds = Err (Redefinition m))
    \/ (exists E2, declare_all E ds = Ok E2 /\ sub os_env E2 /\ sub E0 E2).
Proof.
  induction ds as [ | [name ty] ds IH ]; intros E E' os_env S1 S2 S3 Hrun.
  - simpl in Hrun. injection Hrun as <-. right. exists E. auto.
  - simpl in Hrun. simpl.
    destruct (resolve E' ty) as [ r | ] eqn:Hr; [ | discriminate Hrun ].
    rewrite (resolve_sub E' E ty r S1 Hr).
    destruct (lookup name E) as [ t0 | ] eqn:HE.
    + (* the name is in scope already *)
      destruct (ctype_eqb t0 r) eqn:Heq.
      * apply ctype_eqb_eq in Heq. subst t0. simpl.
        destruct (lookup name E') as [ t' | ] eqn:HE'.
        -- destruct (ctype_eqb t' r); [ | discriminate Hrun ].
           simpl in Hrun. exact (IH E E' os_env S1 S2 S3 Hrun).
        -- simpl in Hrun.
           refine (IH E (E' ++ [(name, r)]) os_env _ _ S3 Hrun).
           ++ intros n t. rewrite lookup_app_one.
              destruct (lookup n E') as [ u | ] eqn:Hn.
              ** intro H. injection H as <-. auto.
              ** destruct (String.eqb n name) eqn:Hnm; [ | discriminate ].
                 apply String.eqb_eq in Hnm. subst n.
                 intro H. injection H as <-. exact HE.
           ++ intros n t Hn. rewrite lookup_app_one.
              destruct (S2 n t Hn) as [ H | H ]; [ | right; exact H ].
              left. rewrite H. reflexivity.
      * left. exists name. split; [ | reflexivity ].
        destruct (S2 name t0 HE) as [ H | H ].
        -- rewrite H in Hrun. rewrite Heq in Hrun. discriminate Hrun.
        -- eapply lookup_some_in; eauto.
    + (* the name is new *)
      assert (HE' : lookup name E' = None).
      { destruct (lookup name E') as [ t' | ] eqn:H; [ | reflexivity ].
        rewrite (S1 name t' H) in HE. discriminate HE. }
      rewrite HE' in Hrun. simpl in Hrun. simpl.
      refine (IH (E ++ [(name, r)]) (E' ++ [(name, r)]) os_env _ _ _ Hrun).
      * intros n t. rewrite !lookup_app_one.
        destruct (lookup n E') as [ u | ] eqn:Hn.
        -- rewrite (S1 n u Hn). auto.
        -- destruct (String.eqb n name) eqn:Hnm; [ | discriminate ].
           apply String.eqb_eq in Hnm. subst n. rewrite HE. auto.
      * intros n t. rewrite !lookup_app_one.
        destruct (lookup n E) as [ u | ] eqn:Hn.
        -- intro H. injection H as <-.
           destruct (S2 n u Hn) as [ H | H ]; [ | right; exact H ].
           left. rewrite H. reflexivity.
        -- destruct (String.eqb n name) eqn:Hnm; [ | discriminate ].
           intro H. left.
           apply String.eqb_eq in Hnm. subst n. rewrite HE'. exact H.
      * intros n t Hn. rewrite lookup_app_one. rewrite (S3 n t Hn).
        reflexivity.
Qed.

(** ** The suppression guards *)

Lemma without_guards_items :
  without_guards x11_items =
  [ ITypedef TVoid "Display"; ITypedef (TPtr TVoid) "RRCrtc";
    ITypedef (TPtr TVoid) "RROutput"; ITypedef (TPtr TVoid) "Window";
    IBlank;
    ITypedef (TPtr TVoid) "GLXContext"; ITypedef (TPtr TVoid) "GLXWindow";
    IBlank;
    IDefine "GLFW_EXPOSE_NATIVE_X11" []; IDefine "GLFW_EXPOSE_NATIVE_GLX" [];
    IBlank ]
  ++ [ IInclude glfw3_h; IInclude glfw3native_h ].
Proof. vm_compute. reflexivity. Qed.

(** With both guards defined nothing of the OS headers comes in, whatever
    they declare, and the header translates. *)
Lemma guards_keep_os_headers_out
  (platform_os native_os : list (string * ctype)) :
  translate (vendored platform_os native_os) initial x11_items
  = Ok (mkState x11_env (defined_macros x11_items)).
Proof. rewrite x11_env_eq, x11_items_eq. reflexivity. Qed.

(** Without the guards both vendored headers bring the OS headers in, on
    top of the header's own typedefs. *)
Lemma translate_without_guards
  (platform_os native_os : list (string * ctype)) :
  translate (vendored platform_os native_os) initial
            (without_guards x11_items)
  = (env <- declare_all x11_env (platform_os ++ native_os) ;;
     Ok (mkState env [ "GLFW_EXPOSE_NATIVE_X11"; "GLFW_EXPOSE_NATIVE_GLX" ])).
Proof.
  rewrite without_guards_items, translate_app, declare_all_app, x11_env_eq.
  match goal with
  | |- context [ translate ?inc initial ?pre ] =>
      assert (P : translate inc initial pre
                  = Ok (mkState
                          [ ("Display", TVoid); ("RRCrtc", TPtr TVoid);
                            ("RROutput", TPtr TVoid); ("Window", TPtr TVoid);
                            ("GLXContext", TPtr TVoid);
                            ("GLXWindow", TPtr TVoid) ]
                          [ "GLFW_EXPOSE_NATIVE_X11";
                            "GLFW_EXPOSE_NATIVE_GLX" ]))
        by reflexivity;
      rewrite P; clear P
  end.
  cbn [bind translate step typedefs macros].
  change (vendored platform_os native_os glfw3_h
            [ "GLFW_EXPOSE_NATIVE_X11"; "GLFW_EXPOSE_NATIVE_GLX" ])
    with platform_os.
  destruct (declare_all _ platform_os) as [ env1 | e ];
    cbn [bind typedefs macros]; [ | reflexivity ].
  change (vendored platform_os native_os glfw3native_h
            [ "GLFW_EXPOSE_NATIVE_X11"; "GLFW_EXPOSE_NATIVE_GLX" ])
    with native_os.
  destruct (declare_all env1 native_os) as [ env2 | e ]; reflexivity.
Qed.

(** C8: leave the two guard definitions out and the vendored headers pull
    the OS headers in.  If those headers, consistent among themselves,
    give one of the header's handle names a type other than the header's
    stand-in, translation fails with a redefinition of a handle name. *)
Theorem omitting_guards_fails_to_translate :
  forall (platform_os native_os : list (string * ctype)) (os_env : tenv)
         (n : string) (t_os t_h : ctype),
    declare_all [] (platform_os ++ native_os) = Ok os_env ->
    lookup n os_env = Some t_os ->
    lookup n x11_env = Some t_h ->
    ctype_eqb t_h t_os = false ->
    exists m : string,
      In m handle_names
      /\ translate (vendored platform_os native_os) initial
                   (without_guards x11_items)
         = Err (Redefinition m).
Proof.
  intros platform_os native_os os_env n t_os t_h Hos Hn_os Hn_h Hdiff.
  rewrite translate_without_guards.
  destruct (declare_all_next_to x11_env (platform_os ++ native_os)
              x11_env [] os_env) as [ [m [Hm Hrun]] | [E2 [_ [S1 S3]]] ].
  - intros k t H. discriminate H.
  - intros k t H. right. exact H.
  - intros k t H. exact H.
  - exact Hos.
  - exists m. split; [ exact Hm | ]. rewrite Hrun. reflexivity.
  - exfalso.
    pose proof (S1 n t_os Hn_os) as A.
    pose proof (S3 n t_h Hn_h) as B.
    rewrite A in B. injection B as ->.
    rewrite ctype_eqb_refl in Hdiff. discriminate Hdiff.
Qed.

Lemma omitting_guards_fails_to_translate_witness :
  declare_all [] ([] ++ xlib_types) = Ok xlib_env
  /\ lookup "Display" xlib_env = Some (TStruct "_XDisplay" None)
  /\ lookup "Display" x11_env = Some TVoid
  /\ ctype_eqb TVoid (TStruct "_XDisplay" None) = false
  /\ exists m : string,
       In m handle_names
       /\ translate (vendored [] xlib_types) initial
                    (without_guards x11_items)
          = Err (Redefinition m).
Proof.
  assert (A : declare_all [] ([] ++ xlib_types) = Ok xlib_env)
    by (vm_compute; reflexivity).
  assert (B : lookup "Display" xlib_env = Some (TStruct "_XDisplay" None))
    by (vm_compute; reflexivity).
  assert (C : lookup "Display" x11_env = Some TVoid)
    by (vm_compute; reflexivity).
  assert (D : ctype_eqb TVoid (TStruct "_XDisplay" None) = false)
    by reflexivity.
  repeat (split; [ assumption | ]).
  exact (omitting_guards_fails_to_translate
           [] xlib_types xlib_env "Display"
           (TStruct "_XDisplay" None) TVoid A B C D).
Defined.

Import Uses.

(** ** Scopes only grow *)







(** ** The header around arbitrary includes *)








(** X2: the header gives away no type but [void].  Every type written
    with its handle names, [void] and stars resolves, and to a type that
    ends in [void] under pointers only, with no typedef name left; a
    value of it can exist exactly when it resolves to a pointer. *)
Theorem types_over_handles_are_void_based :
  forall t : ctype,
    over_handles t = true ->
    exists t' : ctype,
      resolve x11_env t = Some t'
      /\ void_based t' = true
      /\ closed t' = true
      /\ has_values x11_env t = is_pointer t'.
Proof.
  induction t as [ | | p IH | n | tag ms ]; cbn [over_handles];
    try discriminate.
  - intros _. exists TVoid. repeat split.
  - intro H. destruct (IH H) as [p' [Hr [Hv [Hc _]]]].
    exists (TPtr p'). unfold has_values. cbn [resolve]. rewrite Hr.
    repeat split; assumption.
  - rewrite handle_names_eq. intro H.
    apply existsb_exists in H as [h [Hin Heq]].
    apply String.eqb_eq in Heq. subst h.
    in_cases Hin; subst n;
      (eexists; split; [ vm_compute; reflexivity | repeat split ]).
Qed.

Lemma types_over_handles_are_void_based_witness :
  over_handles (TPtr (TPtr (TNamed "Display"))) = true
  /\ exists t' : ctype,
       resolve x11_env (TPtr (TPtr (TNamed "Display"))) = Some t'
       /\ void_based t' = true
       /\ closed t' = true
       /\ has_values x11_env (TPtr (TPtr (TNamed "Display")))
          = is_pointer t'.
Proof.
  assert (A : over_handles (TPtr (TPtr (TNamed "Display"))) = true)
    by (vm_compute; reflexivity).
  split; [ exact A | ].
  exact (types_over_handles_are_void_based _ A).
Defined.



(** X4: the header's macros act on their own names only.  Each is in the
    [GLFW_] name space and has an empty replacement list, and a line of
    tokens none of which is an identifier of that name space comes out of
    macro replacement as it went in: no handle name, type or function
    name of an included declaration is rewritten. *)
Theorem macros_touch_only_GLFW_names :
  forall ts : list token,
    forallb (fun t => negb (in_glfw_macro_space t)) ts = true ->
    expand (macro_table x11_items) ts = ts
    /\ Forall (fun d => in_glfw_macro_space (TId (fst d)) = true
                        /\ expand (macro_table x11_items) [ TId (fst d) ]
                           = [])
              (macro_table x11_items).
Proof.
  intros ts H. split.
  - change (macro_table x11_items) with
      [ ("GLFW_INCLUDE_NONE", @nil token);
        ("GLFW_NATIVE_INCLUDE_NONE", @nil token);
        ("GLFW_EXPOSE_NATIVE_X11", @nil token);
        ("GLFW_EXPOSE_NATIVE_GLX", @nil token) ].
    induction ts as [ | t ts IH ]; [ reflexivity | ].
    cbn [forallb] in H. apply andb_true_iff in H as [Ht Hts].
    specialize (IH Hts).
    destruct t as [ s | c | s | s ]; cbn [expand]; try (rewrite IH; reflexivity).
    assert (R : replacement s
                  [ ("GLFW_INCLUDE_NONE", @nil token);
                    ("GLFW_NATIVE_INCLUDE_NONE", @nil token);
                    ("GLFW_EXPOSE_NATIVE_X11", @nil token);
                    ("GLFW_EXPOSE_NATIVE_GLX", @nil token) ] = None).
    { cbn [replacement].
      repeat match goal with
             | |- context [ String.eqb s ?m ] =>
                 let E := fresh "E" in
                 destruct (String.eqb s m) eqn:E;
                 [ apply String.eqb_eq in E; subst s;
                   vm_compute in Ht; discriminate Ht | ]
             end.
      reflexivity. }
    rewrite R, IH. reflexivity.
  - vm_compute. repeat constructor.
Qed.

Lemma macros_touch_only_GLFW_names_witness :
  forallb (fun t => negb (in_glfw_macro_space t))
          (lex "GLFWAPI Display* glfwGetX11Display(void);") = true
  /\ expand (macro_table x11_items)
            (lex "GLFWAPI Display* glfwGetX11Display(void);")
     = lex "GLFWAPI Display* glfwGetX11Display(void);".
Proof.
  assert (A : forallb (fun t => negb (in_glfw_macro_space t))
                (lex "GLFWAPI Display* glfwGetX11Display(void);") = true)
    by (vm_compute; reflexivity).
  split; [ exact A | ].
  exact (proj1 (macros_touch_only_GLFW_names _ A)).
Defined.


